(** * The Twilio takeaway phone bot (bot.py)

    A shallow embedding of [run_bot] and [bot]: the Python objects the
    program builds (the message list, the LLM context, the processors of
    the pipeline, the pipeline task and its observer), the two transport
    event handlers, and the calls they make on the task.

    The classes imported from the pipecat framework are not part of the
    program.  Their constructors are modelled as the values the program
    passes to them; where a statement depends on what the framework does
    with such a value, that behaviour is a variable of the development,
    or, for the constructor of the context, a definition modelled from
    the spec and marked as such. *)

From Stdlib Require Import ZArith Ascii String.
From stdpp Require Import base strings list gmap.

Local Open Scope string_scope.
Local Open Scope list_scope.

(** ** Python objects *)

(** A chat message: the dict literal with the keys "role" and "content". *)
Record message := Message { role : string; content : string }.

#[global] Instance message_eq_dec : EqDecision message.
Proof. solve_decision. Defined.

(** List objects live in a store and are named by their address, so that
    two variables can hold the same list. *)
Definition loc := positive.

(** [OpenAILLMContext(messages)]: the context object and the address of
    the message list it reads. *)
Record OpenAILLMContext := { _messages : loc }.

#[global] Instance OpenAILLMContext_eq_dec : EqDecision OpenAILLMContext.
Proof. solve_decision. Defined.

(** The only frame the program itself creates. *)
Inductive Frame :=
  | OpenAILLMContextFrame (context : OpenAILLMContext).

#[global] Instance Frame_eq_dec : EqDecision Frame.
Proof. solve_decision. Defined.

(** ** The transport, built in [bot] *)

Inductive WebSocket := Socket (id : nat).

Inductive VADAnalyzer := SileroVADAnalyzer.

Record TwilioFrameSerializer := {
  stream_sid : string;
  call_sid : string;
  account_sid : string;
  auth_token : string
}.

Record FastAPIWebsocketParams := {
  audio_in_enabled : bool;
  audio_out_enabled : bool;
  add_wav_header : bool;
  vad_analyzer : VADAnalyzer;
  serializer : TwilioFrameSerializer
}.

Record FastAPIWebsocketTransport := {
  websocket : WebSocket;
  params : FastAPIWebsocketParams
}.

Abbreviation BaseTransport := FastAPIWebsocketTransport.

(** ** Frame processors *)

Record RTVIConfig := { config : list string }.

Inductive AggregatorRole := UserRole | AssistantRole.

Record LLMContextAggregator := {
  aggregator_role : AggregatorRole;
  aggregator_context : OpenAILLMContext
}.

(** [llm.create_context_aggregator(context)] *)
Record ContextAggregatorPair := {
  user : LLMContextAggregator;
  assistant : LLMContextAggregator
}.

Inductive FrameProcessor :=
  | TransportInput (transport : BaseTransport)
  | RTVIProcessor (config : RTVIConfig)
  | DeepgramSTTService (api_key : option string)
  | ContextAggregator (aggregator : LLMContextAggregator)
  | OpenAILLMService (api_key : option string)
  | CartesiaTTSService (api_key : option string) (voice_id : string)
  | TransportOutput (transport : BaseTransport).

(** What a processor is for. *)
Inductive StageKind :=
  | TransportInputStage
  | RTVIStage
  | SpeechToTextStage
  | UserAggregatorStage
  | LanguageModelStage
  | TextToSpeechStage
  | TransportOutputStage
  | AssistantAggregatorStage.

#[global] Instance StageKind_eq_dec : EqDecision StageKind.
Proof. solve_decision. Defined.

Definition stage_kind (p : FrameProcessor) : StageKind :=
  match p with
  | TransportInput _ => TransportInputStage
  | RTVIProcessor _ => RTVIStage
  | DeepgramSTTService _ => SpeechToTextStage
  | ContextAggregator a =>
      match aggregator_role a with
      | UserRole => UserAggregatorStage
      | AssistantRole => AssistantAggregatorStage
      end
  | OpenAILLMService _ => LanguageModelStage
  | CartesiaTTSService _ _ => TextToSpeechStage
  | TransportOutput _ => TransportOutputStage
  end.

(** ** The pipeline task *)

Record PipelineParams := {
  audio_in_sample_rate : Z;
  audio_out_sample_rate : Z;
  enable_metrics : bool;
  enable_usage_metrics : bool
}.

Inductive Observer :=
  | RTVIObserver (rtvi : FrameProcessor).

Record PipelineTask := {
  task_pipeline : list FrameProcessor;
  task_params : PipelineParams;
  task_observers : list Observer
}.

(** What the program asks of its task, in the order it asks. *)
Inductive TaskCall :=
  | QueueFrames (frames : list Frame)
  | Cancel.

#[global] Instance TaskCall_eq_dec : EqDecision TaskCall.
Proof. solve_decision. Defined.

(** ** The state the program runs in *)

Record World := {
  environ : gmap string string;
  heap : gmap loc (list message);
  log : list string;
  task_calls : list TaskCall
}.

Definition Run (A : Type) : Type := World → A * World.

#[global] Instance Run_ret : MRet Run := λ A a w, (a, w).
#[global] Instance Run_bind : MBind Run :=
  λ A B f m w, let '(a, w') := m w in f a w'.

Definition exec {A} (m : Run A) (w : World) : World := (m w).2.
Definition eval {A} (m : Run A) (w : World) : A := (m w).1.

(** [os.getenv(key)] *)
Definition os_getenv (key : string) : Run (option string) :=
  λ w, (environ w !! key, w).

(** [os.getenv(key, default)] *)
Definition os_getenv_default (key fallback : string) : Run string :=
  λ w, (default fallback (environ w !! key), w).

(** [logger.info(line)] *)
Definition logger_info (line : string) : Run unit :=
  λ w, (tt, {| environ := environ w; heap := heap w;
               log := log w ++ [line]; task_calls := task_calls w |}).

(** A list display: a new list object at an unused address. *)
Definition list_new (ms : list message) : Run loc :=
  λ w, let l := fresh (dom (heap w)) in
       (l, {| environ := environ w; heap := <[l := ms]> (heap w);
              log := log w; task_calls := task_calls w |}).

(** [l.append(m)].  Every address the program holds is that of a live
    list; at any other address nothing is changed. *)
Definition list_append (l : loc) (m : message) : Run unit :=
  λ w, (tt, {| environ := environ w;
               heap := alter (λ ms, ms ++ [m]) l (heap w);
               log := log w; task_calls := task_calls w |}).

Definition task_call (c : TaskCall) : Run unit :=
  λ w, (tt, {| environ := environ w; heap := heap w;
               log := log w; task_calls := task_calls w ++ [c] |}).

(** [task.queue_frames(frames)] *)
Definition queue_frames (frames : list Frame) : Run unit :=
  task_call (QueueFrames frames).

(** [task.cancel()] *)
Definition cancel : Run unit := task_call Cancel.

(** ** The program's constants *)

Definition double_quote : string := String "034"%char EmptyString.

(** The text of the first message: the order-taking script. *)
Definition system_prompt : string :=
  ("You are a professional AI takeaway assistant for " ++ double_quote ++ "My Takeaway" ++ double_quote ++
   ".

Your job is to take food orders in a warm, friendly, and confident tone.

You follow this script:

1. Ask: “Hi, welcome to My Takeaway. Are you calling for collection or delivery?”

2. If collection:
   - Ask for the customer’s name.
   - Confirm the caller number as contact.
   - Ask what they’d like to order.

3. If delivery:
   - Ask for their name.
   - Ask for delivery address and postcode, confirm back.
   - Confirm caller number.
   - Ask what they’d like to order.

4. For each item:
   - If pizza, confirm size.
   - Ask “Is that on its own or as a meal?”
   - If meal:
     - Offer to go large on fries for 65p extra.
     - Ask for drinks (amount depends on pizza size or 1 for wrap/burger).
   - Confirm each item clearly.

5. Always say “Next item?” after confirming an item.

6. Loop until customer says “That’s all” or “No more.”

7. Confirm full order. Say:
   - “Here’s what I’ve got: [list items]”
   - “Your total is £XX.XX”

8. If collection:
   - “Perfect! Your order will be ready in about 15 minutes. Thank you for choosing My Takeaway. Goodbye!” (hang up immediately)

9. If delivery:
   - “Perfect! Your order will be delivered in about 30–40 minutes. Thank you for choosing My Takeaway. Goodbye!” (hang up immediately)

✅ Skip questions that were already answered (e.g. size or meal).
✅ Don’t repeat customer phrasing.
✅ No long pauses or delays.
✅ End the call right after total — no extra questions.

Your tone is friendly, brief, and efficient.
")%string.

Definition greeting_directive : string :=
  "Say hello and briefly introduce yourself.".

(** The list display bound to [messages]. *)
Definition initial_messages : list message :=
  [ {| role := "system"; content := system_prompt |} ].

Definition cartesia_voice_id : string :=
  "71a7ad14-091c-4e8e-a314-022ece01c121".

(** ** [run_bot] *)

(** [llm.create_context_aggregator(context)]: both aggregators are given
    the one context object. *)
Definition create_context_aggregator (context : OpenAILLMContext)
    : ContextAggregatorPair :=
  {| user := {| aggregator_role := UserRole;
                aggregator_context := context |};
     assistant := {| aggregator_role := AssistantRole;
                     aggregator_context := context |} |}.

(** [aggregator.get_context_frame()] *)
Definition get_context_frame (a : LLMContextAggregator) : Frame :=
  OpenAILLMContextFrame (aggregator_context a).

(** The local variables of [run_bot] that its two handlers close over,
    and the objects built from them. *)
Record Closure := {
  transport : BaseTransport;
  stt : FrameProcessor;
  tts : FrameProcessor;
  llm : FrameProcessor;
  messages : loc;
  context : OpenAILLMContext;
  context_aggregator : ContextAggregatorPair;
  rtvi : FrameProcessor;
  pipeline : list FrameProcessor;
  task : PipelineTask
}.

(** An event of the transport, by the name handlers are registered
    under, with the client it is about. *)
Record TransportEvent := {
  event_name : string;
  event_client : WebSocket
}.

Definition on_client_connected (cl : Closure)
    (transport : BaseTransport) (client : WebSocket) : Run unit :=
  logger_info "Client connected";;
  list_append (messages cl)
    {| role := "system";
       content := "Say hello and briefly introduce yourself." |};;
  queue_frames [get_context_frame (user (context_aggregator cl))].

Definition on_client_disconnected (cl : Closure)
    (transport : BaseTransport) (client : WebSocket) : Run unit :=
  logger_info "Client disconnected";;
  cancel.

(** The handlers [run_bot] registers with [transport.event_handler]. *)
Definition event_handlers (cl : Closure)
    : gmap string (BaseTransport → WebSocket → Run unit) :=
  <["on_client_disconnected" := on_client_disconnected cl]>
    (<["on_client_connected" := on_client_connected cl]> ∅).

(** The transport raises an event: the handler registered under its name
    runs, if there is one. *)
Definition emit (cl : Closure) (ev : TransportEvent) : Run unit :=
  match event_handlers cl !! event_name ev with
  | Some handler => handler (transport cl) (event_client ev)
  | None => mret tt
  end.

(** [runner.run(task)], as far as the program takes part in it: the events
    the transport raises while the task runs, each handled by the
    program's handler for it.  What the framework's own processors do
    during the run is not part of it; in particular the two aggregators
    of the pipeline hold the context and append the turns of the
    conversation to its list, and none of those appends is in a run of
    [runner_run]. *)
Fixpoint runner_run (cl : Closure) (events : list TransportEvent)
    : Run unit :=
  match events with
  | [] => mret tt
  | ev :: events' => emit cl ev;; runner_run cl events'
  end.

Record RunnerArguments := { runner_websocket : WebSocket }.

Section Bot.

(** [OpenAILLMContext(messages)] is the framework's: from the address of
    the list it is given and the store, the context object and the
    store it leaves. *)
Variable OpenAILLMContext_init :
  loc → gmap loc (list message) →
  OpenAILLMContext * gmap loc (list message).

Definition new_context (messages : loc) : Run OpenAILLMContext :=
  λ w, let '(context, h) := OpenAILLMContext_init messages (heap w) in
       (context, {| environ := environ w; heap := h;
                    log := log w; task_calls := task_calls w |}).

(** The body of [run_bot] up to the registration of the handlers. *)
Definition run_bot_setup (transport : BaseTransport) : Run Closure :=
  logger_info "Starting bot";;
  deepgram_api_key ← os_getenv "DEEPGRAM_API_KEY";
  let stt := DeepgramSTTService deepgram_api_key in
  cartesia_api_key ← os_getenv "CARTESIA_API_KEY";
  let tts := CartesiaTTSService cartesia_api_key cartesia_voice_id in
  openai_api_key ← os_getenv "OPENAI_API_KEY";
  let llm := OpenAILLMService openai_api_key in
  messages ← list_new initial_messages;
  context ← new_context messages;
  let context_aggregator := create_context_aggregator context in
  let rtvi := RTVIProcessor {| config := [] |} in
  let pipeline :=
    [ TransportInput transport;
      rtvi;
      stt;
      ContextAggregator (user context_aggregator);
      llm;
      tts;
      TransportOutput transport;
      ContextAggregator (assistant context_aggregator) ] in
  let task :=
    {| task_pipeline := pipeline;
       task_params := {| audio_in_sample_rate := 8000%Z;
                         audio_out_sample_rate := 8000%Z;
                         enable_metrics := true;
                         enable_usage_metrics := true |};
       task_observers := [RTVIObserver rtvi] |} in
  mret {| transport := transport; stt := stt; tts := tts; llm := llm;
          messages := messages; context := context;
          context_aggregator := context_aggregator; rtvi := rtvi;
          pipeline := pipeline; task := task |}.

(** [run_bot(transport)], with the events raised during the run. *)
Definition run_bot (transport : BaseTransport)
    (events : list TransportEvent) : Run unit :=
  cl ← run_bot_setup transport;
  runner_run cl events.

(** [parse_telephony_websocket(websocket)] is the framework's: the
    transport type and the call data read from the socket. *)
Variable parse_telephony_websocket :
  WebSocket → string * gmap string string.

(** [bot(runner_args)].  A key missing from [call_data] raises
    [KeyError]: the result is [None] and nothing after it is run.  That
    is the only failure of the program's own; the framework's
    constructors, here and in [run_bot], are taken to accept what they
    are given (the framework may reject a missing API key or
    credential). *)
Definition bot (runner_args : RunnerArguments)
    (events : list TransportEvent) : Run (option unit) :=
  let '(transport_type, call_data) :=
    parse_telephony_websocket (runner_websocket runner_args) in
  logger_info ("Auto-detected transport: " ++ transport_type)%string;;
  match call_data !! "stream_id" with
  | None => mret None
  | Some stream_id =>
    match call_data !! "call_id" with
    | None => mret None
    | Some call_id =>
      twilio_account_sid ← os_getenv_default "TWILIO_ACCOUNT_SID" EmptyString;
      twilio_auth_token ← os_getenv_default "TWILIO_AUTH_TOKEN" EmptyString;
      let serializer :=
        {| stream_sid := stream_id; call_sid := call_id;
           account_sid := twilio_account_sid;
           auth_token := twilio_auth_token |} in
      let transport :=
        {| websocket := runner_websocket runner_args;
           params := {| audio_in_enabled := true;
                        audio_out_enabled := true;
                        add_wav_header := false;
                        vad_analyzer := SileroVADAnalyzer;
                        serializer := serializer |} |} in
      run_bot transport events;;
      mret (Some tt)
    end
  end.

End Bot.

(** ** Frames moving down a pipeline *)

Section Flow.

Context {F : Type}.

(** What a processor pushes downstream, given the frames pushed to it.
    The processors are the framework's; any behaviour is allowed. *)
Variable process : FrameProcessor → list F → list F.

(** [Pipeline(processors)] links each processor to the one after it in
    the list.  [deliveries ps frames] lists, from the head of the chain
    down, each processor with the frames that reach it when [frames]
    enter at the head. *)
Fixpoint deliveries (ps : list FrameProcessor) (frames : list F)
    : list (FrameProcessor * list F) :=
  match ps with
  | [] => []
  | p :: ps' => (p, frames) :: deliveries ps' (process p frames)
  end.

End Flow.

(** ** Reading the state *)

(** The messages a context has, in a given state. *)
Definition context_messages (c : OpenAILLMContext) (w : World)
    : option (list message) :=
  heap w !! _messages c.

Definition frame_messages (f : Frame) (w : World)
    : option (list message) :=
  match f with
  | OpenAILLMContextFrame c => context_messages c w
  end.

(** The frames handed to the task so far. *)
Definition queued (w : World) : list Frame :=
  task_calls w ≫= λ c,
    match c with
    | QueueFrames frames => frames
    | Cancel => []
    end.

(** Has the task been told to cancel? *)
Definition cancelled (w : World) : bool :=
  bool_decide (Cancel ∈ task_calls w).

(** ** Reference constructors and a sample session *)

(** The context keeps the list it is given. *)
Definition OpenAILLMContext_by_reference (l : loc)
    (h : gmap loc (list message))
    : OpenAILLMContext * gmap loc (list message) :=
  ({| _messages := l |}, h).

(** Modelled from the spec: the constructor of [OpenAILLMContext], which
    is the framework's and has no source here.  The conversation context
    is shared by reference (section 3): the context reads the list it is
    given.  An empty list is the one exception, in the way of the Python
    idiom [messages if messages else []]: the context then starts a list
    of its own. *)
Definition OpenAILLMContext_sharing (l : loc)
    (h : gmap loc (list message))
    : OpenAILLMContext * gmap loc (list message) :=
  match h !! l with
  | Some (_ :: _) => ({| _messages := l |}, h)
  | _ => let l' := fresh (dom h) in
         ({| _messages := l' |}, <[l' := []]> h)
  end.

(** The context makes its own list with the same messages. *)
Definition OpenAILLMContext_by_copy (l : loc)
    (h : gmap loc (list message))
    : OpenAILLMContext * gmap loc (list message) :=
  let l' := fresh (dom h) in
  ({| _messages := l' |}, <[l' := default [] (h !! l)]> h).

Definition sample_transport : BaseTransport :=
  {| websocket := Socket 0;
     params := {| audio_in_enabled := true;
                  audio_out_enabled := true;
                  add_wav_header := false;
                  vad_analyzer := SileroVADAnalyzer;
                  serializer := {| stream_sid := "MZ1"; call_sid := "CA1";
                                   account_sid := "AC1";
                                   auth_token := "twilio-token" |} |} |}.

Definition empty_world : World :=
  {| environ := ∅; heap := ∅; log := []; task_calls := [] |}.

(** An environment with every key and credential the program reads. *)
Definition configured_environ : gmap string string :=
  <["DEEPGRAM_API_KEY" := "deepgram-key"]>
    (<["CARTESIA_API_KEY" := "cartesia-key"]>
       (<["OPENAI_API_KEY" := "openai-key"]>
          (<["TWILIO_ACCOUNT_SID" := "AC1"]>
             (<["TWILIO_AUTH_TOKEN" := "twilio-token"]> ∅)))).

Definition configured_world : World :=
  {| environ := configured_environ; heap := ∅; log := [];
     task_calls := [] |}.

(** What [run_bot] builds for the sample transport in the configured
    environment, and the state it leaves. *)
Definition sample_session : Closure :=
  eval (run_bot_setup OpenAILLMContext_sharing sample_transport)
    configured_world.

Definition sample_world : World :=
  exec (run_bot_setup OpenAILLMContext_sharing sample_transport)
    configured_world.

Definition client_connected (client : WebSocket) : TransportEvent :=
  {| event_name := "on_client_connected"; event_client := client |}.

Definition client_disconnected (client : WebSocket) : TransportEvent :=
  {| event_name := "on_client_disconnected"; event_client := client |}.

(** * Properties *)

(** ** The chain of processors *)

Section FlowFacts.

Context {F : Type} (process : FrameProcessor → list F → list F).

(** Frames reach the processors in the order of the list, and reach
    every one of them. *)
Lemma deliveries_stages ps frames :
  (deliveries process ps frames).*1 = ps.
Proof.
  revert frames. induction ps as [|p ps IH]; intros frames; simpl.
  - reflexivity.
  - by rewrite IH.
Qed.

(** A processor is given exactly what the one before it pushed. *)
Lemma deliveries_chain ps frames (i : nat) p q fs gs :
  deliveries process ps frames !! i = Some (p, fs) →
  deliveries process ps frames !! S i = Some (q, gs) →
  gs = process p fs.
Proof.
  revert frames i. induction ps as [|r ps IH]; intros frames i; simpl.
  - done.
  - destruct i as [|i]; simpl.
    + intros [= <- <-]. destruct ps as [|r' ps']; simpl.
      * done.
      * by intros [= _ <-].
    + apply IH.
Qed.

End FlowFacts.

(** ** The handlers, step by step *)

Lemma event_handlers_lookup cl name :
  event_handlers cl !! name =
    if decide (name = "on_client_disconnected")
    then Some (on_client_disconnected cl)
    else if decide (name = "on_client_connected")
    then Some (on_client_connected cl)
    else None.
Proof.
  unfold event_handlers.
  destruct (decide (name = "on_client_disconnected")) as [->|Hd].
  - by rewrite lookup_insert_eq.
  - rewrite lookup_insert_ne by done.
    destruct (decide (name = "on_client_connected")) as [->|Hc].
    + by rewrite lookup_insert_eq.
    + by rewrite lookup_insert_ne.
Qed.

Lemma emit_connected cl client :
  emit cl (client_connected client)
  = on_client_connected cl (transport cl) client.
Proof. unfold emit. by rewrite event_handlers_lookup. Qed.

Lemma emit_disconnected cl client :
  emit cl (client_disconnected client)
  = on_client_disconnected cl (transport cl) client.
Proof. unfold emit. by rewrite event_handlers_lookup. Qed.

Lemma on_client_connected_exec cl tr client w :
  exec (on_client_connected cl tr client) w =
    {| environ := environ w;
       heap := alter
                 (λ ms, ms ++ [ {| role := "system";
                                   content := greeting_directive |} ])
                 (messages cl) (heap w);
       log := log w ++ ["Client connected"];
       task_calls :=
         task_calls w ++
         [QueueFrames
            [OpenAILLMContextFrame
               (aggregator_context (user (context_aggregator cl)))]] |}.
Proof. reflexivity. Qed.

Lemma on_client_disconnected_exec cl tr client w :
  exec (on_client_disconnected cl tr client) w =
    {| environ := environ w;
       heap := heap w;
       log := log w ++ ["Client disconnected"];
       task_calls := task_calls w ++ [Cancel] |}.
Proof. reflexivity. Qed.

(** Whatever the event, a handler only adds to the calls made on the
    task. *)
Lemma emit_task_calls cl ev w :
  task_calls w `prefix_of` task_calls (exec (emit cl ev) w).
Proof.
  unfold emit. rewrite event_handlers_lookup.
  repeat case_decide.
  - rewrite on_client_disconnected_exec. simpl. by apply prefix_app_r.
  - rewrite on_client_connected_exec. simpl. by apply prefix_app_r.
  - reflexivity.
Qed.

Lemma runner_run_cons cl ev events w :
  exec (runner_run cl (ev :: events)) w
  = exec (runner_run cl events) (exec (emit cl ev) w).
Proof.
  unfold exec. simpl. unfold mbind, Run_bind.
  by destruct (emit cl ev w) as [[] w'].
Qed.

Lemma runner_run_task_calls cl events w :
  task_calls w `prefix_of` task_calls (exec (runner_run cl events) w).
Proof.
  revert w. induction events as [|ev events IH]; intros w.
  - reflexivity.
  - rewrite runner_run_cons.
    etrans; [apply (emit_task_calls cl ev)|apply IH].
Qed.

(** ** What [run_bot] builds *)

Lemma run_bot_setup_run init tr w :
  let l := fresh (dom (heap w)) in
  let ch := init l (<[l := initial_messages]> (heap w)) in
  let aggregators := create_context_aggregator ch.1 in
  let rtvi := RTVIProcessor {| config := [] |} in
  let stt := DeepgramSTTService (environ w !! "DEEPGRAM_API_KEY") in
  let tts :=
    CartesiaTTSService (environ w !! "CARTESIA_API_KEY") cartesia_voice_id in
  let llm := OpenAILLMService (environ w !! "OPENAI_API_KEY") in
  let pipeline :=
    [ TransportInput tr; rtvi; stt; ContextAggregator (user aggregators);
      llm; tts; TransportOutput tr;
      ContextAggregator (assistant aggregators) ] in
  run_bot_setup init tr w =
    ({| transport := tr; stt := stt; tts := tts; llm := llm;
        messages := l; context := ch.1;
        context_aggregator := aggregators; rtvi := rtvi;
        pipeline := pipeline;
        task := {| task_pipeline := pipeline;
                   task_params := {| audio_in_sample_rate := 8000%Z;
                                     audio_out_sample_rate := 8000%Z;
                                     enable_metrics := true;
                                     enable_usage_metrics := true |};
                   task_observers := [RTVIObserver rtvi] |} |},
     {| environ := environ w; heap := ch.2;
        log := log w ++ ["Starting bot"]; task_calls := task_calls w |}).
Proof.
  unfold run_bot_setup, new_context, mbind, Run_bind, mret, Run_ret,
    logger_info, os_getenv, list_new.
  simpl. by destruct (init _ _) as [c h].
Qed.

(** The stages of the data flow, in the order it gives them. *)
Definition data_flow_order : list StageKind :=
  [ TransportInputStage; SpeechToTextStage; UserAggregatorStage;
    LanguageModelStage; TextToSpeechStage; TransportOutputStage;
    AssistantAggregatorStage ].

(** The stage kinds of the pipeline [run_bot] builds. *)
Definition pipeline_stages : list StageKind :=
  [ TransportInputStage; RTVIStage; SpeechToTextStage;
    UserAggregatorStage; LanguageModelStage; TextToSpeechStage;
    TransportOutputStage; AssistantAggregatorStage ].

(** C1, as stated, fails: in the sample session, set up in an
    environment that has every API key, the chain is not the chain
    transport input, speech-to-text, user aggregator, language model,
    text-to-speech, transport output, assistant aggregator.  What
    transport input pushes reaches the RTVI processor next, not
    speech-to-text. *)
Lemma pipeline_is_not_the_data_flow_chain :
  stage_kind <$> pipeline sample_session ≠ data_flow_order ∧
  (stage_kind <$> pipeline sample_session) !! 1%nat = Some RTVIStage ∧
  data_flow_order !! 1%nat = Some SpeechToTextStage.
Proof. vm_compute. repeat split; discriminate. Qed.

(** C1, amended.  In every session the pipeline is the chain transport
    input, RTVI processor, speech-to-text, user context aggregator,
    language model, text-to-speech, transport output, assistant context
    aggregator, and the task runs that pipeline.  So the stages of the
    data flow stand in it in the order the data flow gives, each once,
    with the RTVI processor as the only other stage.  Frames entering at
    the head reach the stages in the order of the chain: transport input
    is given the frames that enter, and each later stage is given what
    the stage before it pushed when given what reached that stage,
    whatever the processors do with frames. *)
Theorem pipeline_follows_data_flow init tr w :
  let cl := eval (run_bot_setup init tr) w in
  task_pipeline (task cl) = pipeline cl ∧
  stage_kind <$> pipeline cl = pipeline_stages ∧
  filter (.∈ data_flow_order) (stage_kind <$> pipeline cl)
    = data_flow_order ∧
  filter (.∉ data_flow_order) (stage_kind <$> pipeline cl)
    = [RTVIStage] ∧
  ∀ (F : Type) (process : FrameProcessor → list F → list F) frames,
    let user_aggregator := ContextAggregator (user (context_aggregator cl)) in
    let assistant_aggregator :=
      ContextAggregator (assistant (context_aggregator cl)) in
    let at_rtvi := process (TransportInput tr) frames in
    let at_stt := process (rtvi cl) at_rtvi in
    let at_user_aggregator := process (stt cl) at_stt in
    let at_llm := process user_aggregator at_user_aggregator in
    let at_tts := process (llm cl) at_llm in
    let at_transport_output := process (tts cl) at_tts in
    let at_assistant_aggregator :=
      process (TransportOutput tr) at_transport_output in
    stage_kind <$> [ stt cl; user_aggregator; llm cl; tts cl;
                     assistant_aggregator ]
      = [ SpeechToTextStage; UserAggregatorStage; LanguageModelStage;
          TextToSpeechStage; AssistantAggregatorStage ] ∧
    deliveries process (pipeline cl) frames =
      [ (TransportInput tr, frames);
        (rtvi cl, at_rtvi);
        (stt cl, at_stt);
        (user_aggregator, at_user_aggregator);
        (llm cl, at_llm);
        (tts cl, at_tts);
        (TransportOutput tr, at_transport_output);
        (assistant_aggregator, at_assistant_aggregator) ].
Proof.
  intros cl. subst cl. unfold eval.
  pose proof (run_bot_setup_run init tr w) as E. simpl in E.
  rewrite E.
  cbn [fst pipeline task task_pipeline rtvi stt llm tts context_aggregator].
  split; [reflexivity|]. split; [reflexivity|].
  split; [reflexivity|]. split; [reflexivity|].
  intros F process frames. split; reflexivity.
Qed.

(** C10.  In every session the RTVI processor is the second processor of
    the pipeline, directly after transport input and directly before
    speech-to-text: the frames that reach speech-to-text are those the
    RTVI processor pushed when given what transport input pushed.  The
    same processor is also what the task's one observer watches. *)
Theorem rtvi_is_inline_second_stage init tr w :
  let cl := eval (run_bot_setup init tr) w in
  stage_kind (rtvi cl) = RTVIStage ∧
  stage_kind (stt cl) = SpeechToTextStage ∧
  pipeline cl !! 0%nat = Some (TransportInput tr) ∧
  pipeline cl !! 1%nat = Some (rtvi cl) ∧
  pipeline cl !! 2%nat = Some (stt cl) ∧
  (∀ (F : Type) (process : FrameProcessor → list F → list F) frames,
     let at_rtvi := process (TransportInput tr) frames in
     let at_stt := process (rtvi cl) at_rtvi in
     deliveries process (pipeline cl) frames !! 0%nat
       = Some (TransportInput tr, frames) ∧
     deliveries process (pipeline cl) frames !! 1%nat
       = Some (rtvi cl, at_rtvi) ∧
     deliveries process (pipeline cl) frames !! 2%nat
       = Some (stt cl, at_stt)) ∧
  task_observers (task cl) = [RTVIObserver (rtvi cl)].
Proof.
  intros cl. subst cl. unfold eval.
  pose proof (run_bot_setup_run init tr w) as E. simpl in E.
  rewrite E. cbn [fst pipeline task task_observers rtvi stt].
  repeat split; reflexivity.
Qed.

(** ** The transport's events *)

(** Running the events of a session, once it is set up. *)
Lemma run_bot_exec init tr events w :
  exec (run_bot init tr events) w
  = exec (runner_run (eval (run_bot_setup init tr) w) events)
      (exec (run_bot_setup init tr) w).
Proof.
  unfold run_bot, exec, eval, mbind, Run_bind.
  by destruct (run_bot_setup init tr w).
Qed.

Lemma run_bot_setup_task_calls init tr w :
  task_calls (exec (run_bot_setup init tr) w) = task_calls w.
Proof.
  unfold exec. pose proof (run_bot_setup_run init tr w) as E.
  simpl in E. by rewrite E.
Qed.

(** C2.  The "client connected" event runs [on_client_connected], which
    appends the system-role message "Say hello and briefly introduce
    yourself." to the message list and hands the task one context frame,
    the frame of the user aggregator's context.  It appends no other
    message and cancels nothing, so no user message is needed for that
    frame to be queued; in a session whose first event it is, the frame is
    the first thing the task is given by the program. *)
Theorem connect_seeds_and_kicks_off cl client w :
  let w' := exec (emit cl (client_connected client)) w in
  let directive :=
    {| role := "system";
       content := "Say hello and briefly introduce yourself." |} in
  let kick_off :=
    OpenAILLMContextFrame
      (aggregator_context (user (context_aggregator cl))) in
  emit cl (client_connected client)
    = on_client_connected cl (transport cl) client ∧
  heap w' = alter (λ ms, ms ++ [directive]) (messages cl) (heap w) ∧
  heap w' !! messages cl
    = (λ ms, ms ++ [directive]) <$> heap w !! messages cl ∧
  task_calls w' = task_calls w ++ [QueueFrames [kick_off]] ∧
  queued w' = queued w ++ [kick_off] ∧
  ∀ init tr w0 events,
    let cl0 := eval (run_bot_setup init tr) w0 in
    ∃ later,
      queued (exec (run_bot init tr (client_connected client :: events)) w0)
      = queued w0 ++
        OpenAILLMContextFrame
          (aggregator_context (user (context_aggregator cl0))) :: later.
Proof.
  intros w' directive kick_off. subst w'.
  rewrite emit_connected, on_client_connected_exec. simpl.
  split; [reflexivity|]. split; [reflexivity|].
  split; [by rewrite lookup_alter_eq|].
  split; [reflexivity|].
  split.
  { unfold queued. simpl. rewrite bind_app. reflexivity. }
  intros init tr w0 events.
  rewrite run_bot_exec, runner_run_cons, emit_connected.
  set (cl0 := eval (run_bot_setup init tr) w0).
  set (w1 := exec (run_bot_setup init tr) w0).
  set (w2 := exec (on_client_connected cl0 (transport cl0) client) w1).
  destruct (runner_run_task_calls cl0 events w2) as [more Hmore].
  unfold queued at 1. rewrite Hmore. subst w2.
  rewrite on_client_connected_exec. simpl. rewrite !bind_app. simpl.
  subst w1. rewrite run_bot_setup_task_calls.
  eexists. unfold queued. rewrite <- app_assoc. simpl. reflexivity.
Qed.

(** C3.  The "client disconnected" event runs [on_client_disconnected],
    which in every state tells the task to cancel, and does nothing else
    to the task or to the messages.  No later event takes the
    cancellation back: the task stays cancelled, and the handler queues
    no frame that would start the conversation again. *)
Theorem disconnect_cancels_task cl client w :
  let w' := exec (emit cl (client_disconnected client)) w in
  emit cl (client_disconnected client)
    = on_client_disconnected cl (transport cl) client ∧
  task_calls w' = task_calls w ++ [Cancel] ∧
  heap w' = heap w ∧
  queued w' = queued w ∧
  cancelled w' = true ∧
  ∀ events,
    let w'' := exec (runner_run cl events) w' in
    task_calls w ++ [Cancel] `prefix_of` task_calls w'' ∧
    cancelled w'' = true.
Proof.
  intros w'. subst w'.
  rewrite emit_disconnected, on_client_disconnected_exec. simpl.
  split; [reflexivity|]. split; [reflexivity|]. split; [reflexivity|].
  split.
  { unfold queued. simpl. rewrite bind_app. simpl. apply app_nil_r. }
  split.
  { unfold cancelled. simpl. apply bool_decide_eq_true.
    apply elem_of_app. right. apply list_elem_of_singleton. reflexivity. }
  intros events.
  set (w1 := {| environ := environ w; heap := heap w;
                log := log w ++ ["Client disconnected"];
                task_calls := task_calls w ++ [Cancel] |}).
  pose proof (runner_run_task_calls cl events w1) as Hpre.
  simpl. split; [exact Hpre|].
  unfold cancelled. apply bool_decide_eq_true.
  destruct Hpre as [more ->]. simpl.
  rewrite !elem_of_app. left. right.
  apply list_elem_of_singleton. reflexivity.
Qed.

(** ** The messages seen through the context *)

(** The context reads the very list it was given. *)
Definition keeps_reference
    (init : loc → gmap loc (list message) →
            OpenAILLMContext * gmap loc (list message)) : Prop :=
  ∀ l h, _messages (init l h).1 = l ∧ (init l h).2 !! l = h !! l.


(** The context reads the list it was given whenever that list has a
    message in it. *)
Definition keeps_nonempty_list
    (init : loc → gmap loc (list message) →
            OpenAILLMContext * gmap loc (list message)) : Prop :=
  ∀ l h m ms,
    h !! l = Some (m :: ms) →
    _messages (init l h).1 = l ∧ (init l h).2 !! l = Some (m :: ms).

Lemma keeps_reference_nonempty init :
  keeps_reference init → keeps_nonempty_list init.
Proof.
  intros Href l h m ms Hl. destruct (Href l h) as [H1 H2].
  split; [exact H1|]. by rewrite H2.
Qed.

Lemma sharing_keeps_nonempty_list :
  keeps_nonempty_list OpenAILLMContext_sharing.
Proof.
  intros l h m ms Hl. unfold OpenAILLMContext_sharing. rewrite Hl.
  split; [reflexivity|exact Hl].
Qed.

(** The sharing constructor does not keep an empty list. *)
Lemma sharing_replaces_empty_list (l : loc) (h : gmap loc (list message)) :
  h !! l = Some [] →
  _messages (OpenAILLMContext_sharing l h).1 ≠ l.
Proof.
  intros Hl. unfold OpenAILLMContext_sharing. rewrite Hl. simpl.
  intros Heq. pose proof (is_fresh (dom h)) as Hfresh.
  rewrite Heq in Hfresh. apply Hfresh, elem_of_dom. by eexists.
Qed.

(** [run_bot] gives the context a list with the script in it, so a
    context that keeps a non-empty list reads [messages]. *)
Lemma run_bot_setup_shares init tr w :
  keeps_nonempty_list init →
  let cl := eval (run_bot_setup init tr) w in
  _messages (context cl) = messages cl ∧
  heap (exec (run_bot_setup init tr) w) !! messages cl
    = Some initial_messages.
Proof.
  intros Hkeep. unfold eval, exec.
  pose proof (run_bot_setup_run init tr w) as E. simpl in E.
  rewrite E. clear E. simpl.
  set (l := fresh (dom (heap w))).
  apply (Hkeep l (<[l := initial_messages]> (heap w))).
  apply lookup_insert_eq.
Qed.

(** C9.  The context holds the list [messages] itself, so the directive
    the connect handler appends to [messages] is seen through the
    context with no further call: after [run_bot] has set the session up
    and the "client connected" event has been handled, the context has
    exactly two messages, both of role system, the order-taking script
    and then the greeting directive, and the one frame queued by the
    handler carries that context and shows the same two messages. *)
Theorem greeting_visible_through_context tr w client :
  let cl := eval (run_bot_setup OpenAILLMContext_sharing tr) w in
  let w1 := exec (run_bot_setup OpenAILLMContext_sharing tr) w in
  let w2 := exec (emit cl (client_connected client)) w1 in
  let script := {| role := "system"; content := system_prompt |} in
  let directive :=
    {| role := "system";
       content := "Say hello and briefly introduce yourself." |} in
  _messages (context cl) = messages cl ∧
  context_messages (context cl) w1 = Some [script] ∧
  context_messages (context cl) w2 = Some [script; directive] ∧
  task_calls w2
    = task_calls w ++ [QueueFrames [OpenAILLMContextFrame (context cl)]] ∧
  frame_messages (OpenAILLMContextFrame (context cl)) w2
    = Some [script; directive].
Proof.
  intros cl w1 w2 script directive.
  destruct (run_bot_setup_shares OpenAILLMContext_sharing tr w
              sharing_keeps_nonempty_list) as [Hctx Hms].
  fold cl w1 in Hctx, Hms.
  assert (aggregator_context (user (context_aggregator cl)) = context cl)
    as Huser.
  { subst cl. unfold eval.
    pose proof (run_bot_setup_run OpenAILLMContext_sharing tr w) as E.
    simpl in E. by rewrite E. }
  assert (context_messages (context cl) w2 = Some [script; directive])
    as Hw2.
  { subst w2. rewrite emit_connected, on_client_connected_exec.
    unfold context_messages. simpl.
    by rewrite Hctx, lookup_alter_eq, Hms. }
  split; [exact Hctx|].
  split; [unfold context_messages; by rewrite Hctx|].
  split; [exact Hw2|].
  split; [|exact Hw2].
  subst w2. rewrite emit_connected, on_client_connected_exec. simpl.
  rewrite Huser. subst w1. by rewrite run_bot_setup_task_calls.
Qed.

(** A context that copied the list would not see the directive: the
    append reaches [messages] only. *)
Lemma copied_context_misses_greeting :
  let cl :=
    eval (run_bot_setup OpenAILLMContext_by_copy sample_transport)
      configured_world in
  let w1 :=
    exec (run_bot_setup OpenAILLMContext_by_copy sample_transport)
      configured_world in
  let w2 := exec (emit cl (client_connected (Socket 1))) w1 in
  length <$> context_messages (context cl) w2 = Some 1%nat ∧
  length <$> heap w2 !! messages cl = Some 2%nat.
Proof. vm_compute. split; reflexivity. Qed.

(** ** The configuration of the task *)





(** ** Cancelling twice *)

(** The program keeps no record of a cancellation of its own: a second
    "client disconnected" event makes it call [task.cancel()] a second
    time.  What the second call does is the framework's. *)
Lemma second_disconnect_cancels_again cl client client' w :
  task_calls
    (exec (runner_run cl [client_disconnected client;
                          client_disconnected client']) w)
  = task_calls w ++ [Cancel; Cancel].
Proof.
  rewrite !runner_run_cons, !emit_disconnected,
    !on_client_disconnected_exec.
  simpl. by rewrite <- app_assoc.
Qed.

(** * Further properties of [run_bot] and [bot] *)

(** ** What a run of events amounts to *)

(** The greeting the connect handler appends. *)
Definition directive : message :=
  {| role := "system";
     content := "Say hello and briefly introduce yourself." |}.

(** The calls an event makes the program place on the task. *)
Definition calls_of_event (cl : Closure) (ev : TransportEvent)
    : list TaskCall :=
  if decide (event_name ev = "on_client_disconnected") then [Cancel]
  else if decide (event_name ev = "on_client_connected")
  then [QueueFrames [get_context_frame (user (context_aggregator cl))]]
  else [].

(** The lines an event makes the program log. *)
Definition lines_of_event (ev : TransportEvent) : list string :=
  if decide (event_name ev = "on_client_disconnected")
  then ["Client disconnected"]
  else if decide (event_name ev = "on_client_connected")
  then ["Client connected"]
  else [].

(** How many of the events are "client connected" events. *)
Definition connects (events : list TransportEvent) : nat :=
  length (filter (λ ev, event_name ev = "on_client_connected") events).

Lemma emit_exec cl ev w :
  exec (emit cl ev) w =
    {| environ := environ w;
       heap := if decide (event_name ev = "on_client_connected")
               then alter (λ ms, ms ++ [directive]) (messages cl) (heap w)
               else heap w;
       log := log w ++ lines_of_event ev;
       task_calls := task_calls w ++ calls_of_event cl ev |}.
Proof.
  unfold emit, calls_of_event, lines_of_event.
  rewrite event_handlers_lookup.
  destruct (decide (event_name ev = "on_client_disconnected")) as [Hd|Hd].
  - rewrite on_client_disconnected_exec.
    rewrite decide_False; [reflexivity|]. rewrite Hd. discriminate.
  - destruct (decide (event_name ev = "on_client_connected")) as [Hc|Hc].
    + by rewrite on_client_connected_exec.
    + unfold exec. simpl. rewrite !app_nil_r. by destruct w.
Qed.

Lemma connects_cons ev events :
  connects (ev :: events) =
    if decide (event_name ev = "on_client_connected")
    then S (connects events) else connects events.
Proof.
  unfold connects. rewrite filter_cons.
  by destruct (decide (event_name ev = "on_client_connected")).
Qed.

Lemma runner_run_environ cl events w :
  environ (exec (runner_run cl events) w) = environ w.
Proof.
  revert w. induction events as [|ev events IH]; intros w; [done|].
  rewrite runner_run_cons, IH, emit_exec. reflexivity.
Qed.

Lemma runner_run_heap cl events w :
  heap (exec (runner_run cl events) w) =
    alter (λ ms, ms ++ replicate (connects events) directive)
      (messages cl) (heap w).
Proof.
  revert w. induction events as [|ev events IH]; intros w.
  - symmetry. apply alter_id. intros ms _. apply app_nil_r.
  - rewrite runner_run_cons, IH, emit_exec, connects_cons. simpl.
    destruct (decide (event_name ev = "on_client_connected")); [|done].
    rewrite alter_alter_eq. apply alter_ext. intros ms _. simpl.
    by rewrite <- app_assoc.
Qed.

Lemma runner_run_log cl events w :
  log (exec (runner_run cl events) w)
  = log w ++ (events ≫= lines_of_event).
Proof.
  revert w. induction events as [|ev events IH]; intros w.
  - simpl. by rewrite app_nil_r.
  - rewrite runner_run_cons, IH, emit_exec. simpl.
    by rewrite <- app_assoc.
Qed.

Lemma queued_emit cl ev w :
  queued (exec (emit cl ev) w) =
    queued w ++
    if decide (event_name ev = "on_client_connected")
    then [get_context_frame (user (context_aggregator cl))] else [].
Proof.
  rewrite emit_exec. unfold queued, calls_of_event. simpl.
  rewrite bind_app.
  destruct (decide (event_name ev = "on_client_disconnected")) as [Hd|Hd].
  - rewrite decide_False; [reflexivity|]. rewrite Hd. discriminate.
  - by destruct (decide (event_name ev = "on_client_connected")).
Qed.

Lemma runner_run_calls cl events w :
  task_calls (exec (runner_run cl events) w)
  = task_calls w ++ (events ≫= calls_of_event cl).
Proof.
  revert w. induction events as [|ev events IH]; intros w.
  - simpl. by rewrite app_nil_r.
  - rewrite runner_run_cons, IH, emit_exec. simpl.
    by rewrite <- app_assoc.
Qed.

Lemma runner_run_queued cl events w :
  queued (exec (runner_run cl events) w)
  = queued w ++
    replicate (connects events)
      (OpenAILLMContextFrame
         (aggregator_context (user (context_aggregator cl)))).
Proof.
  revert w. induction events as [|ev events IH]; intros w.
  - simpl. by rewrite app_nil_r.
  - rewrite runner_run_cons, IH, queued_emit, connects_cons.
    destruct (decide (event_name ev = "on_client_connected")).
    + by rewrite <- app_assoc.
    + by rewrite app_nil_r.
Qed.

Lemma run_bot_setup_log init tr w :
  log (exec (run_bot_setup init tr) w) = log w ++ ["Starting bot"].
Proof.
  unfold exec. pose proof (run_bot_setup_run init tr w) as E.
  simpl in E. by rewrite E.
Qed.

(** Both aggregators of a session read the session's one context. *)
Lemma run_bot_setup_aggregators init tr w :
  let cl := eval (run_bot_setup init tr) w in
  aggregator_context (user (context_aggregator cl)) = context cl ∧
  aggregator_context (assistant (context_aggregator cl)) = context cl.
Proof.
  unfold eval. pose proof (run_bot_setup_run init tr w) as E.
  simpl in E. rewrite E. split; reflexivity.
Qed.

(** X1.  The program reacts to exactly two events.  An event under any
    other name runs no handler and leaves the state as it is, and each
    of the two registered events changes the state. *)
Theorem only_registered_events_act cl ev w :
  exec (emit cl ev) w = w ↔
  event_name ev ≠ "on_client_connected" ∧
  event_name ev ≠ "on_client_disconnected".
Proof.
  rewrite emit_exec. split.
  - intros H. apply (f_equal (λ s, length (log s))) in H. simpl in H.
    rewrite length_app in H. unfold lines_of_event in H.
    split; intros Hn; rewrite Hn in H; simpl in H; lia.
  - intros [Hc Hd]. unfold lines_of_event, calls_of_event.
    rewrite !(decide_False (P := event_name ev = _)) by done.
    rewrite !app_nil_r. by destruct w.
Qed.

(** X2.  The calls placed on the task in a session are, in the order
    of the events, one [queue_frames] of the context frame for each
    "client connected" event and one [cancel] for each "client
    disconnected" event, and nothing for any other event.  Setting the
    session up places no call, and calls made before it are kept. *)
Theorem task_calls_follow_events init tr events w :
  let cl := eval (run_bot_setup init tr) w in
  task_calls (exec (run_bot init tr events) w)
  = task_calls w ++ (events ≫= calls_of_event cl).
Proof.
  intros cl. subst cl.
  rewrite run_bot_exec, runner_run_calls.
  by rewrite run_bot_setup_task_calls.
Qed.

(** X3.  The program cancels the task only on a disconnect: after a run
    the task has been told to cancel exactly when it had been before the
    run or one of the events was "client disconnected". *)
Theorem cancelled_iff_disconnected cl events w :
  cancelled (exec (runner_run cl events) w) = true ↔
  cancelled w = true ∨
  ∃ ev, ev ∈ events ∧ event_name ev = "on_client_disconnected".
Proof.
  unfold cancelled. rewrite !bool_decide_eq_true.
  rewrite runner_run_calls, elem_of_app, list_elem_of_bind.
  split.
  - intros [H|(ev & Hcall & Hev)]; [by left|right].
    exists ev. split; [done|].
    unfold calls_of_event in Hcall.
    destruct (decide (event_name ev = "on_client_disconnected")); [done|].
    destruct (decide (event_name ev = "on_client_connected")).
    + apply list_elem_of_singleton in Hcall. discriminate Hcall.
    + by apply elem_of_nil in Hcall.
  - intros [H|(ev & Hev & Hname)]; [by left|right].
    exists ev. split; [|done].
    unfold calls_of_event. rewrite decide_True by done.
    by apply list_elem_of_singleton.
Qed.

(** X4.  Every "client connected" event queues one more frame, always
    the frame of the session's one context: at the end of a session the
    queue holds what it held before, followed by as many copies of that
    frame as there were connect events.  Disconnects and other events
    queue nothing, and a connect that comes after a disconnect still
    queues its frame. *)
Theorem queued_frames_count_connects init tr events w :
  let cl := eval (run_bot_setup init tr) w in
  queued (exec (run_bot init tr events) w)
  = queued w ++
    replicate (connects events) (OpenAILLMContextFrame (context cl)).
Proof.
  intros cl.
  destruct (run_bot_setup_aggregators init tr w) as [Huser _].
  fold cl in Huser.
  rewrite run_bot_exec. fold cl. rewrite runner_run_queued, Huser.
  unfold queued at 1. by rewrite run_bot_setup_task_calls.
Qed.

(** X5.  The handlers keep no record of a greeting already given.  Over
    a run of events in which only the handlers write to the message list
    (no turn of the conversation is appended to it meanwhile), the list
    after the run is the list before it followed by one greeting
    directive for each "client connected" event. *)
Theorem messages_grow_by_connects cl events w :
  heap (exec (runner_run cl events) w) !! messages cl
  = (λ ms, ms ++ replicate (connects events) directive)
      <$> heap w !! messages cl.
Proof. by rewrite runner_run_heap, lookup_alter_eq. Qed.

(** X6.  A run of events changes nothing but the program's own message
    list, its log and the calls on its task: every other list in the
    store and the environment are as before. *)
Theorem handlers_touch_only_messages cl events w l :
  l ≠ messages cl →
  heap (exec (runner_run cl events) w) !! l = heap w !! l ∧
  environ (exec (runner_run cl events) w) = environ w.
Proof.
  intros Hl. split.
  - rewrite runner_run_heap. by apply lookup_alter_ne.
  - apply runner_run_environ.
Qed.

(** A list other than the sample session's own survives a connect. *)
Lemma handlers_touch_only_messages_sample :
  (2%positive ≠ messages sample_session) ∧
  heap (exec (runner_run sample_session [client_connected (Socket 1)])
          {| environ := ∅;
             heap := <[2%positive := [directive]]> (heap sample_world);
             log := []; task_calls := [] |}) !! 2%positive
  = Some [directive].
Proof.
  assert (2%positive ≠ messages sample_session) as Hne
    by (vm_compute; discriminate).
  split; [exact Hne|].
  rewrite (proj1 (handlers_touch_only_messages sample_session
                    [client_connected (Socket 1)] _ 2%positive Hne)).
  simpl. apply lookup_insert_eq.
Defined.

(** ** Whole sessions *)


(** X7.  The log of a session: "Starting bot" first, then one line for
    each "client connected" and each "client disconnected" event, in the
    order of the events, and no line for any other event. *)
Theorem log_follows_events init tr events w :
  log (exec (run_bot init tr events) w)
  = log w ++ "Starting bot" :: (events ≫= lines_of_event).
Proof.
  rewrite run_bot_exec, runner_run_log, run_bot_setup_log.
  by rewrite <- app_assoc.
Qed.

(** X8.  Queued frames are not snapshots.  When the context keeps a
    list that has a message in it, every frame a session queues carries
    the session's context, and each of them shows whatever the message
    list holds when it is read.  Over a run of events in which only the
    handlers write to the list (no turn of the conversation is appended
    to it meanwhile), each frame read at the end shows the script and
    the directives of all connect events, also of those that came after
    the frame was queued. *)
Theorem queued_frames_show_later_appends init tr events w :
  keeps_nonempty_list init →
  let cl := eval (run_bot_setup init tr) w in
  let w' := exec (run_bot init tr events) w in
  queued w'
    = queued w ++
      replicate (connects events) (OpenAILLMContextFrame (context cl)) ∧
  (∀ state, frame_messages (OpenAILLMContextFrame (context cl)) state
            = heap state !! messages cl) ∧
  frame_messages (OpenAILLMContextFrame (context cl)) w'
    = Some (initial_messages ++ replicate (connects events) directive).
Proof.
  intros Hkeep cl w'. subst w'.
  destruct (run_bot_setup_shares init tr w Hkeep) as [Hctx Hms].
  destruct (run_bot_setup_aggregators init tr w) as [Huser _].
  fold cl in Hctx, Hms, Huser.
  rewrite run_bot_exec. fold cl. split; [|split].
  - rewrite runner_run_queued, Huser.
    unfold queued at 1. by rewrite run_bot_setup_task_calls.
  - intros state. simpl. unfold context_messages. by rewrite Hctx.
  - simpl. unfold context_messages. rewrite Hctx.
    by rewrite runner_run_heap, lookup_alter_eq, Hms.
Qed.

(** Two connects in the sample session: both frames show three
    messages. *)
Lemma queued_frames_show_later_appends_sample :
  keeps_nonempty_list OpenAILLMContext_sharing ∧
  frame_messages (OpenAILLMContextFrame (context sample_session))
    (exec (run_bot OpenAILLMContext_sharing sample_transport
             [client_connected (Socket 1); client_connected (Socket 2)])
       configured_world)
  = Some (initial_messages ++ [directive; directive]).
Proof.
  split; [exact sharing_keeps_nonempty_list|].
  exact (proj2 (proj2 (queued_frames_show_later_appends
                  OpenAILLMContext_sharing sample_transport
                  [client_connected (Socket 1); client_connected (Socket 2)]
                  configured_world sharing_keeps_nonempty_list))).
Defined.



(** ** [bot] *)

(** The state after [bot] has logged the transport type. *)
Definition detected (transport_type : string) (w : World) : World :=
  {| environ := environ w; heap := heap w;
     log := log w ++ [("Auto-detected transport: " ++ transport_type)%string];
     task_calls := task_calls w |}.


(** X10.  [bot] fails exactly when the call data lacks "stream_id" or
    "call_id".  When it fails it has logged the transport type and done
    nothing else: no session is set up, nothing is allocated in the
    store, no call is made on a task and no event is handled. *)
Theorem bot_fails_on_missing_call_data
    init parse args events w transport_type call_data :
  parse (runner_websocket args) = (transport_type, call_data) →
  (eval (bot init parse args events) w = None ↔
   call_data !! "stream_id" = None ∨ call_data !! "call_id" = None) ∧
  (eval (bot init parse args events) w = None →
   exec (bot init parse args events) w = detected transport_type w).
Proof.
  intros Hparse. unfold eval, exec, bot. rewrite Hparse.
  unfold mbind, Run_bind, logger_info. simpl.
  destruct (call_data !! "stream_id") as [sid|]; simpl;
    [|split; [split; [by left|done]|done]].
  destruct (call_data !! "call_id") as [cid|]; simpl;
    [|split; [split; [by right|done]|done]].
  unfold os_getenv_default, mret, Run_ret. simpl.
  destruct (run_bot init _ events _) as [[] w'] eqn:Hrun. simpl.
  split; [split|]; [done| |done].
  intros [H|H]; discriminate H.
Qed.

(** Call data without a call id. *)
Definition incomplete_call_data : gmap string string :=
  <["stream_id" := "MZ1"]> ∅.

Definition incomplete_parse (ws : WebSocket)
    : string * gmap string string :=
  ("twilio", incomplete_call_data).

Definition sample_args : RunnerArguments :=
  {| runner_websocket := Socket 0 |}.

Lemma bot_fails_on_missing_call_data_sample :
  incomplete_parse (runner_websocket sample_args)
    = ("twilio", incomplete_call_data) ∧
  bot OpenAILLMContext_by_reference incomplete_parse sample_args
    [client_connected (Socket 0)] empty_world
  = (None, detected "twilio" empty_world).
Proof.
  split; [reflexivity|].
  pose proof (bot_fails_on_missing_call_data
                OpenAILLMContext_by_reference incomplete_parse sample_args
                [client_connected (Socket 0)] empty_world
                "twilio" incomplete_call_data eq_refl)
    as [Hiff Hexec].
  assert (eval (bot OpenAILLMContext_by_reference incomplete_parse
                  sample_args [client_connected (Socket 0)]) empty_world
          = None)
    as Hnone by (apply Hiff; right; reflexivity).
  specialize (Hexec Hnone). unfold eval in Hnone. unfold exec in Hexec.
  destruct (bot _ _ _ _ _) as [r w']. simpl in *. by subst.
Defined.




